(** * Least-squares fit of the voltage/current graph

    The component [VoltageCurrentGraph] holds a table of (voltage, current)
    readings, fits a straight line to it ([calculateLinearRegression]) and
    derives the two end points of that line ([generateBestFitLine]).

    The arithmetic of the source is the arithmetic of JavaScript numbers,
    IEEE 754 binary64.  The regression is written once, over an interface
    [Arith] of the six operations it uses, and read at two instances:
    - [binary64], the primitive floats of the kernel, which are the numbers
      the program computes with;
    - [exact], the real numbers, which is the arithmetic the formulas of the
      documentation are written in.  The program never computes there; what
      is proved at that instance is stated apart, next to what holds on
      binary64. *)

From Stdlib Require Import List ZArith Bool Lia Lra Reals Floats Permutation.
From Stdlib Require Uint63.
Import ListNotations.

Set Warnings "-inexact-float".

(** ** The arithmetic interface *)

Declare Scope num_scope.
Delimit Scope num_scope with num.

Class Arith (A : Type) : Type := {
  num_zero : A;
  num_add : A -> A -> A;
  num_sub : A -> A -> A;
  num_mul : A -> A -> A;
  num_div : A -> A -> A;
  (** [data.length] read as a number *)
  of_length : nat -> A
}.

Notation "x + y" := (num_add x y) : num_scope.
Notation "x - y" := (num_sub x y) : num_scope.
Notation "x * y" := (num_mul x y) : num_scope.
Notation "x / y" := (num_div x y) : num_scope.

(** JavaScript numbers.  An array length is an integer below 2^32, which
    [of_uint63] converts without rounding. *)
#[export] Instance binary64 : Arith float := {
  num_zero := 0%float;
  num_add := PrimFloat.add;
  num_sub := PrimFloat.sub;
  num_mul := PrimFloat.mul;
  num_div := PrimFloat.div;
  of_length := fun n => PrimFloat.of_uint63 (Uint63.of_Z (Z.of_nat n))
}.

(** Exact arithmetic. *)
#[export] Instance exact : Arith R := {
  num_zero := 0%R;
  num_add := Rplus;
  num_sub := Rminus;
  num_mul := Rmult;
  num_div := Rdiv;
  of_length := INR
}.

(** ** The regression, as the source writes it *)

Section Regression.
Context {A : Type} `{Arith A}.
Local Open Scope num_scope.

(** One row of the table: [{ voltage, current }]. *)
Record Point : Type := { voltage : A; current : A }.

(** The accumulators of the first loop. *)
Record Sums : Type := {
  sumX : A; sumY : A; sumXY : A; sumXX : A; sumYY : A
}.

Definition sums_init : Sums :=
  {| sumX := num_zero; sumY := num_zero; sumXY := num_zero;
     sumXX := num_zero; sumYY := num_zero |}.

(** Body of [for (const point of data) { sumX += ...; ... }]. *)
Definition accumulate (s : Sums) (point : Point) : Sums :=
  {| sumX := sumX s + voltage point;
     sumY := sumY s + current point;
     sumXY := sumXY s + voltage point * current point;
     sumXX := sumXX s + voltage point * voltage point;
     sumYY := sumYY s + current point * current point |}.

(** [Math.pow(v, 2)].  The engines return the product [v * v] for the
    exponent 2. *)
Definition Math_pow2 (v : A) : A := v * v.

(** The accumulators of the second loop. *)
Record Variation : Type := { totalVariation : A; explainedVariation : A }.

Definition variation_init : Variation :=
  {| totalVariation := num_zero; explainedVariation := num_zero |}.

(** Body of the second loop, with [slope], [intercept] and [meanY] in
    scope. *)
Definition accumulate_variation (slope intercept meanY : A)
    (v : Variation) (point : Point) : Variation :=
  let predictedY := slope * voltage point + intercept in
  {| totalVariation := totalVariation v + Math_pow2 (current point - meanY);
     explainedVariation := explainedVariation v + Math_pow2 (predictedY - meanY) |}.

(** The returned object [{ slope, intercept, rSquared }]. *)
Record FitResult : Type := { slope : A; intercept : A; rSquared : A }.

Definition calculateLinearRegression (data : list Point) : FitResult :=
  let n := of_length (length data) in
  let s := fold_left accumulate data sums_init in
  let slope := (n * sumXY s - sumX s * sumY s) / (n * sumXX s - sumX s * sumX s) in
  let intercept := (sumY s - slope * sumX s) / n in
  let meanY := sumY s / n in
  let v := fold_left (accumulate_variation slope intercept meanY) data variation_init in
  let rSquared := explainedVariation v / totalVariation v in
  {| slope := slope; intercept := intercept; rSquared := rSquared |}.

(** The divisor of the slope. *)
Definition slope_denominator (data : list Point) : A :=
  let n := of_length (length data) in
  let s := fold_left accumulate data sums_init in
  n * sumXX s - sumX s * sumX s.

(** *** The sums of the documentation

    [Sigma f data] is the sum of [f] over the points of [data], taken in
    sequence order starting from zero. *)
Definition Sigma (f : Point -> A) (data : list Point) : A :=
  fold_left (fun acc point => acc + f point) data num_zero.

(** A sum started from [a] instead of zero. *)
Definition sum_from (f : Point -> A) (a : A) (data : list Point) : A :=
  fold_left (fun acc point => acc + f point) data a.

Definition xs (p : Point) : A := voltage p.
Definition ys (p : Point) : A := current p.
Definition xy (p : Point) : A := voltage p * current p.
Definition xx (p : Point) : A := voltage p * voltage p.

End Regression.

Arguments Point A : clear implicits.
Arguments Sums A : clear implicits.
Arguments Variation A : clear implicits.
Arguments FitResult A : clear implicits.

(** ** The table of the component *)

Definition pt (x y : float) : Point float := {| voltage := x; current := y |}.

Definition table : list (Point float) :=
  [ pt 0.0 0; pt 0.5 9.33; pt 1.0 23; pt 1.5 24.66; pt 2.0 47.66;
    pt 2.5 60.66; pt 3.0 71.66; pt 3.5 85; pt 4.0 95.66 ]%float.

(** ** The built-ins [Math.min] and [Math.max]

    Both are applied to the spread list of voltages.  They follow the
    language definition: the running value starts at the infinity of the
    opposite sign, a NaN argument makes the result NaN, and the two zeros
    are told apart. *)

Definition is_neg_zero (x : float) : bool :=
  match PrimFloat.classify x with NZero => true | _ => false end.

Definition is_pos_zero (x : float) : bool :=
  match PrimFloat.classify x with PZero => true | _ => false end.

Fixpoint Math_min_from (lowest : float) (values : list float) : float :=
  match values with
  | [] => lowest
  | number :: rest =>
      if PrimFloat.is_nan number then PrimFloat.nan
      else if is_neg_zero number && is_pos_zero lowest then Math_min_from number rest
      else if (number <? lowest)%float then Math_min_from number rest
      else Math_min_from lowest rest
  end.

Definition Math_min (values : list float) : float :=
  Math_min_from PrimFloat.infinity values.

Fixpoint Math_max_from (highest : float) (values : list float) : float :=
  match values with
  | [] => highest
  | number :: rest =>
      if PrimFloat.is_nan number then PrimFloat.nan
      else if is_pos_zero number && is_neg_zero highest then Math_max_from number rest
      else if (highest <? number)%float then Math_max_from number rest
      else Math_max_from highest rest
  end.

Definition Math_max (values : list float) : float :=
  Math_max_from PrimFloat.neg_infinity values.

(** ** The component

    Its state is the table and the three [useState] cells, each [null]
    until the effect has run.  The functions of the component are closures
    over that state; they are computations in the state monad [M]. *)

Module Component.

Record State : Type := {
  data : list (Point float);
  gradient : option float;
  intercept : option float;
  rSquared : option float
}.

Definition M (X : Type) : Type := State -> X * State.

Definition ret {X : Type} (x : X) : M X := fun s => (x, s).

Definition bind {X Y : Type} (m : M X) (k : X -> M Y) : M Y :=
  fun s => let '(x, s') := m s in k x s'.

Notation "x <- m ;; k" := (bind m (fun x => k))
  (at level 61, m at next level, right associativity).
Notation "m ;;; k" := (bind m (fun _ => k))
  (at level 61, right associativity).

Definition eval {X : Type} (m : M X) (s : State) : X := fst (m s).
Definition exec {X : Type} (m : M X) (s : State) : State := snd (m s).

(** Reading the closure variables. *)
Definition read_data : M (list (Point float)) := fun s => (data s, s).
Definition read_gradient : M (option float) := fun s => (gradient s, s).
Definition read_intercept : M (option float) := fun s => (intercept s, s).

(** The setters returned by [useState]. *)
Definition setGradient (v : float) : M unit := fun s =>
  (tt, {| data := data s; gradient := Some v;
          intercept := intercept s; rSquared := rSquared s |}).
Definition setIntercept (v : float) : M unit := fun s =>
  (tt, {| data := data s; gradient := gradient s;
          intercept := Some v; rSquared := rSquared s |}).
Definition setRSquared (v : float) : M unit := fun s =>
  (tt, {| data := data s; gradient := gradient s;
          intercept := intercept s; rSquared := Some v |}).

(** [calculateLinearRegression()]: the regression of the table in scope. *)
Definition calculateLinearRegression : M (FitResult float) :=
  points <- read_data ;;
  ret (calculateLinearRegression points).

(** [generateBestFitLine()]. *)
Definition generateBestFitLine : M (list (Point float)) :=
  g <- read_gradient ;;
  i <- read_intercept ;;
  match g, i with
  | Some gradient, Some intercept =>
      points <- read_data ;;
      let minVoltage := Math_min (map voltage points) in
      let maxVoltage := Math_max (map voltage points) in
      ret [ {| voltage := minVoltage;
               current := (minVoltage * gradient + intercept)%float |};
            {| voltage := maxVoltage;
               current := (maxVoltage * gradient + intercept)%float |} ]
  | _, _ => ret []
  end.

(** The body of [useEffect]. *)
Definition effect : M unit :=
  r <- calculateLinearRegression ;;
  let '(Build_FitResult slope intercept rSquared) := r in
  setGradient slope ;;;
  setIntercept intercept ;;;
  setRSquared rSquared.

(** The state of the first render. *)
Definition initial : State :=
  {| data := table; gradient := None; intercept := None; rSquared := None |}.

End Component.

(** ** The body of the fit, statement by statement

    [calculateLinearRegression] declares seven variables with [let] and
    updates them in its two loops.  Here the body is written as the source
    has it, over a store made of the state of the component and of the
    variables of the function.  A declaration [let v = 0] writes the initial
    value of [v], so the variables a call finds in the store are whatever an
    earlier call left there. *)

Module Imperative.

Record Locals : Type := {
  sumX : float; sumY : float; sumXY : float; sumXX : float; sumYY : float;
  totalVariation : float; explainedVariation : float
}.

Record Store : Type := { component : Component.State; locals : Locals }.

Definition M (X : Type) : Type := Store -> X * Store.

Definition ret {X : Type} (x : X) : M X := fun st => (x, st).

Definition bind {X Y : Type} (m : M X) (k : X -> M Y) : M Y :=
  fun st => let '(x, st') := m st in k x st'.

Notation "x <- m ;; k" := (bind m (fun x => k))
  (at level 61, m at next level, right associativity).
Notation "m ;;; k" := (bind m (fun _ => k))
  (at level 61, right associativity).

(** Reading the table of the component and a variable of the function. *)
Definition read_data : M (list (Point float)) :=
  fun st => (Component.data (component st), st).

Definition read {X : Type} (variable : Locals -> X) : M X :=
  fun st => (variable (locals st), st).

(** Writing a variable of the function. *)
Definition write (update : Locals -> Locals) : M unit :=
  fun st => (tt, {| component := component st; locals := update (locals st) |}).

Definition set_sumX (v : float) (l : Locals) : Locals :=
  {| sumX := v; sumY := sumY l; sumXY := sumXY l; sumXX := sumXX l;
     sumYY := sumYY l; totalVariation := totalVariation l;
     explainedVariation := explainedVariation l |}.
Definition set_sumY (v : float) (l : Locals) : Locals :=
  {| sumX := sumX l; sumY := v; sumXY := sumXY l; sumXX := sumXX l;
     sumYY := sumYY l; totalVariation := totalVariation l;
     explainedVariation := explainedVariation l |}.
Definition set_sumXY (v : float) (l : Locals) : Locals :=
  {| sumX := sumX l; sumY := sumY l; sumXY := v; sumXX := sumXX l;
     sumYY := sumYY l; totalVariation := totalVariation l;
     explainedVariation := explainedVariation l |}.
Definition set_sumXX (v : float) (l : Locals) : Locals :=
  {| sumX := sumX l; sumY := sumY l; sumXY := sumXY l; sumXX := v;
     sumYY := sumYY l; totalVariation := totalVariation l;
     explainedVariation := explainedVariation l |}.
Definition set_sumYY (v : float) (l : Locals) : Locals :=
  {| sumX := sumX l; sumY := sumY l; sumXY := sumXY l; sumXX := sumXX l;
     sumYY := v; totalVariation := totalVariation l;
     explainedVariation := explainedVariation l |}.
Definition set_totalVariation (v : float) (l : Locals) : Locals :=
  {| sumX := sumX l; sumY := sumY l; sumXY := sumXY l; sumXX := sumXX l;
     sumYY := sumYY l; totalVariation := v;
     explainedVariation := explainedVariation l |}.
Definition set_explainedVariation (v : float) (l : Locals) : Locals :=
  {| sumX := sumX l; sumY := sumY l; sumXY := sumXY l; sumXX := sumXX l;
     sumYY := sumYY l; totalVariation := totalVariation l;
     explainedVariation := v |}.

(** [for (const point of data) body]. *)
Fixpoint for_of {X : Type} (items : list X) (body : X -> M unit) : M unit :=
  match items with
  | [] => ret tt
  | item :: rest => body item ;;; for_of rest body
  end.

Definition calculateLinearRegression : M (FitResult float) :=
  data <- read_data ;;
  let n := of_length (length data) in
  write (set_sumX 0) ;;;
  write (set_sumY 0) ;;;
  write (set_sumXY 0) ;;;
  write (set_sumXX 0) ;;;
  write (set_sumYY 0) ;;;
  for_of data (fun point =>
    write (fun l => set_sumX (sumX l + voltage point)%float l) ;;;
    write (fun l => set_sumY (sumY l + current point)%float l) ;;;
    write (fun l => set_sumXY (sumXY l + voltage point * current point)%float l) ;;;
    write (fun l => set_sumXX (sumXX l + voltage point * voltage point)%float l) ;;;
    write (fun l => set_sumYY (sumYY l + current point * current point)%float l)) ;;;
  sx <- read sumX ;;
  sy <- read sumY ;;
  sxy <- read sumXY ;;
  sxx <- read sumXX ;;
  let slope := ((n * sxy - sx * sy) / (n * sxx - sx * sx))%float in
  let intercept := ((sy - slope * sx) / n)%float in
  let meanY := (sy / n)%float in
  write (set_totalVariation 0) ;;;
  write (set_explainedVariation 0) ;;;
  for_of data (fun point =>
    let predictedY := (slope * voltage point + intercept)%float in
    write (fun l => set_totalVariation
                      (totalVariation l + Math_pow2 (current point - meanY))%float l) ;;;
    write (fun l => set_explainedVariation
                      (explainedVariation l + Math_pow2 (predictedY - meanY))%float l)) ;;;
  tv <- read totalVariation ;;
  ev <- read explainedVariation ;;
  let rSquared := (ev / tv)%float in
  ret (@Build_FitResult float slope intercept rSquared).

End Imperative.

(** The variables of the first and of the second loop, as the accumulators
    of the regression. *)
Definition sums_of (l : Imperative.Locals) : Sums float :=
  {| sumX := Imperative.sumX l; sumY := Imperative.sumY l;
     sumXY := Imperative.sumXY l; sumXX := Imperative.sumXX l;
     sumYY := Imperative.sumYY l |}.

Definition variation_of (l : Imperative.Locals) : Variation float :=
  {| totalVariation := Imperative.totalVariation l;
     explainedVariation := Imperative.explainedVariation l |}.

(** What one round of each loop does to the variables. *)
Definition first_loop_round (l : Imperative.Locals) (point : Point float) :
    Imperative.Locals :=
  let l1 := Imperative.set_sumX (Imperative.sumX l + voltage point)%float l in
  let l2 := Imperative.set_sumY (Imperative.sumY l1 + current point)%float l1 in
  let l3 := Imperative.set_sumXY
              (Imperative.sumXY l2 + voltage point * current point)%float l2 in
  let l4 := Imperative.set_sumXX
              (Imperative.sumXX l3 + voltage point * voltage point)%float l3 in
  Imperative.set_sumYY (Imperative.sumYY l4 + current point * current point)%float l4.

Definition second_loop_round (m b meanY : float) (l : Imperative.Locals)
    (point : Point float) : Imperative.Locals :=
  let predictedY := (m * voltage point + b)%float in
  let l1 := Imperative.set_totalVariation
              (Imperative.totalVariation l + Math_pow2 (current point - meanY))%float l in
  Imperative.set_explainedVariation
    (Imperative.explainedVariation l1 + Math_pow2 (predictedY - meanY))%float l1.

(** ** Tables with small integer voltages on the line y = 2x + 1 *)








(** ** Notions used by the statements *)

Definition has_nan (values : list float) : bool := existsb PrimFloat.is_nan values.

(** [m] is a least element of [values] for the order of the numbers. *)
Definition minimum_of (values : list float) (m : float) : Prop :=
  In m values /\ forall x, In x values -> (m <=? x)%float = true.

(** [m] is a greatest element of [values]. *)
Definition maximum_of (values : list float) (m : float) : Prop :=
  In m values /\ forall x, In x values -> (x <=? m)%float = true.

(** All points of [points] have the same abscissa. *)
Definition same_x {A : Type} (points : list (Point A)) : Prop :=
  forall p q, In p points -> In q points -> voltage p = voltage q.


(** The record of results, field by field. *)
Definition fit_R (points : list (Point R)) : FitResult R :=
  calculateLinearRegression points.

Definition fit64 (points : list (Point float)) : FitResult float :=
  calculateLinearRegression points.

(** The number one, and the values that are a zero or NaN. *)
Definition SFone64 : spec_float := S754_finite false 4503599627370496 (-52).

Definition zero_or_nan (a : spec_float) : Prop :=
  match a with S754_zero _ | S754_nan => True | _ => False end.

Definition is_zero_SF (a : spec_float) : Prop :=
  match a with S754_zero _ => True | _ => False end.

(** Zero or finite: what [is_finite] accepts. *)
Definition is_finite_SF (a : spec_float) : Prop :=
  match a with S754_zero _ | S754_finite _ _ _ => True | _ => False end.

(** Greater than zero, the infinity included. *)
Definition is_positive_SF (a : spec_float) : Prop :=
  match a with S754_finite false _ _ | S754_infinity false => True | _ => False end.

(** Not negative, and not the negative zero either: NaN, +0, a positive
    number or +Infinity. *)
Definition sign_plus (a : spec_float) : Prop :=
  match a with
  | S754_zero false | S754_finite false _ _ | S754_infinity false | S754_nan => True
  | _ => False
  end.

(** The total variation the second loop accumulates, on binary64. *)
Definition total_variation64 (points : list (Point float)) : float :=
  let meanY := (Sigma ys points / of_length (length points))%float in
  Sigma (fun p => ((current p - meanY) * (current p - meanY))%float) points.

(** A table whose voltages sum to zero. *)
Definition centred : list (Point float) := [ pt (-1) 0; pt 1 2; pt 0 4 ]%float.

(** Three readings at the same voltage 0.3. *)
Definition thrice : list (Point float) := [ pt 0.3 1; pt 0.3 2; pt 0.3 3 ]%float.

(** Two points of the line y = 2x + 1, at the voltages 2^27 and 2^27 + 1. *)
Definition steep : list (Point float) :=
  [ pt 134217728 268435457; pt 134217729 268435459 ]%float.

(** Three points off any line. *)
Definition skew : list (Point float) := [ pt 0 0; pt 1 0; pt 2 1 ]%float.



(** The table with its decimal values read exactly. *)
Definition ptR (x y : R) : Point R := {| voltage := x; current := y |}.

Definition table_exact : list (Point R) :=
  [ ptR 0 0; ptR 0.5 9.33; ptR 1 23; ptR 1.5 24.66; ptR 2 47.66;
    ptR 2.5 60.66; ptR 3 71.66; ptR 3.5 85; ptR 4 95.66 ]%R.

(** ** Tactics for the order of [spec_float] *)

Ltac cmp_cases :=
  repeat match goal with
  | |- context [Z.compare ?a ?b] => destruct (Z.compare_spec a b); subst
  | H : context [Z.compare ?a ?b] |- _ => destruct (Z.compare_spec a b); subst
  | |- context [Pos.compare_cont Eq ?a ?b] =>
      change (Pos.compare_cont Eq a b) with (Pos.compare a b)
  | H : context [Pos.compare_cont Eq ?a ?b] |- _ =>
      change (Pos.compare_cont Eq a b) with (Pos.compare a b) in H
  | |- context [Pos.compare ?a ?b] => destruct (Pos.compare_spec a b); subst
  | H : context [Pos.compare ?a ?b] |- _ => destruct (Pos.compare_spec a b); subst
  end.

Ltac sf_order :=
  unfold SFleb, SFltb, SFcompare;
  try (intros; reflexivity); try (intros; discriminate); try (intros; congruence);
  intros; cmp_cases; simpl in *;
  try reflexivity; try discriminate; try congruence; try lia.

Example fit_of_table :
  fit64 table =
  {| slope := 24.76566666666665; intercept := -3.1279999999999668;
     rSquared := 0.98852789064693924 |}%float.
Proof. vm_compute. reflexivity. Qed.

Example segment_of_table :
  Component.eval Component.generateBestFitLine
    (Component.exec Component.effect Component.initial) =
  [ pt 0 (-3.1279999999999668); pt 4 95.934666666666629 ]%float.
Proof. vm_compute. reflexivity. Qed.

Example segment_first_render :
  Component.eval Component.generateBestFitLine Component.initial = [].
Proof. reflexivity. Qed.

(** * Facts about binary64

    The primitive operations are specified by their counterparts on
    [spec_float]; the facts below are read off those. *)

Lemma SFcompare_refl (a : spec_float) :
  a <> S754_nan -> SFcompare a a = Some Eq.
Proof.
  destruct a as [s|s| |s m e]; simpl; intros Hn; try congruence.
  - destruct s; reflexivity.
  - rewrite Z.compare_refl.
    change (Pos.compare_cont Eq m m) with (Pos.compare m m).
    rewrite Pos.compare_refl. destruct s; reflexivity.
Qed.

Lemma is_nan_spec (x : float) :
  PrimFloat.is_nan x = true <-> Prim2SF x = S754_nan.
Proof.
  unfold PrimFloat.is_nan. rewrite FloatAxioms.eqb_spec. unfold SFeqb.
  destruct (Prim2SF x) as [s|s| |s m e] eqn:E.
  - simpl. split; discriminate.
  - rewrite SFcompare_refl by discriminate. simpl. split; discriminate.
  - simpl. tauto.
  - rewrite SFcompare_refl by discriminate. simpl. split; discriminate.
Qed.

Lemma not_nan_spec (x : float) :
  PrimFloat.is_nan x = false <-> Prim2SF x <> S754_nan.
Proof.
  rewrite <- is_nan_spec. destruct (PrimFloat.is_nan x); split; congruence.
Qed.

Lemma SFleb_trans (a b c : spec_float) :
  SFleb a b = true -> SFleb b c = true -> SFleb a c = true.
Proof.
  destruct a as [[]|[]| |[] ma ea], b as [[]|[]| |[] mb eb],
           c as [[]|[]| |[] mc ec]; sf_order.
Qed.

Lemma SFltb_leb (a b : spec_float) : SFltb a b = true -> SFleb a b = true.
Proof.
  unfold SFltb, SFleb. destruct (SFcompare a b) as [[]|]; congruence.
Qed.

Lemma SFltb_false_leb (a b : spec_float) :
  a <> S754_nan -> b <> S754_nan -> SFltb a b = false -> SFleb b a = true.
Proof.
  destruct a as [[]|[]| |[] ma ea], b as [[]|[]| |[] mb eb]; sf_order.
Qed.

Section Order.
Local Open Scope float_scope.

Lemma leb_refl (x : float) : PrimFloat.is_nan x = false -> (x <=? x) = true.
Proof.
  rewrite not_nan_spec, leb_spec. intros Hx. unfold SFleb.
  now rewrite SFcompare_refl.
Qed.

Lemma leb_trans (x y z : float) :
  (x <=? y) = true -> (y <=? z) = true -> (x <=? z) = true.
Proof. rewrite !leb_spec. apply SFleb_trans. Qed.

Lemma ltb_leb (x y : float) : (x <? y) = true -> (x <=? y) = true.
Proof. rewrite ltb_spec, leb_spec. apply SFltb_leb. Qed.

Lemma ltb_false_leb (x y : float) :
  PrimFloat.is_nan x = false -> PrimFloat.is_nan y = false ->
  (x <? y) = false -> (y <=? x) = true.
Proof. rewrite !not_nan_spec, ltb_spec, leb_spec. apply SFltb_false_leb. Qed.

Lemma neg_zero_spec (x : float) :
  is_neg_zero x = true -> Prim2SF x = S754_zero true.
Proof.
  unfold is_neg_zero. rewrite classify_spec. unfold SF64classify, SFclassify.
  destruct (Prim2SF x) as [[]|[]| |[] m e]; try discriminate; try reflexivity;
    destruct (Z.eqb _ _); discriminate.
Qed.

Lemma pos_zero_spec (x : float) :
  is_pos_zero x = true -> Prim2SF x = S754_zero false.
Proof.
  unfold is_pos_zero. rewrite classify_spec. unfold SF64classify, SFclassify.
  destruct (Prim2SF x) as [[]|[]| |[] m e]; try discriminate; try reflexivity;
    destruct (Z.eqb _ _); discriminate.
Qed.

Lemma zeros_leb (x y : float) :
  Prim2SF x = S754_zero true -> Prim2SF y = S754_zero false ->
  (x <=? y) = true /\ (y <=? x) = true.
Proof. intros Hx Hy. rewrite !leb_spec, Hx, Hy. split; reflexivity. Qed.

Lemma infinity_leb (x : float) : (infinity <=? x) = true -> x = infinity.
Proof.
  rewrite leb_spec. intros H. apply Prim2SF_inj.
  change (Prim2SF infinity) with (S754_infinity false) in *.
  destruct (Prim2SF x) as [[]|[]| |[] m e]; try discriminate; reflexivity.
Qed.

Lemma leb_neg_infinity (x : float) : (x <=? neg_infinity) = true -> x = neg_infinity.
Proof.
  rewrite leb_spec. intros H. apply Prim2SF_inj.
  change (Prim2SF neg_infinity) with (S754_infinity true) in *.
  destruct (Prim2SF x) as [[]|[]| |[] m e]; try discriminate; reflexivity.
Qed.

(** Multiplication commutes, rounding included. *)
Lemma SF64mul_comm (a b : spec_float) : SF64mul a b = SF64mul b a.
Proof.
  unfold SF64mul, SFmul.
  destruct a as [sa|sa| |sa ma ea], b as [sb|sb| |sb mb eb];
    try reflexivity; try (now rewrite xorb_comm).
  now rewrite xorb_comm, Pos.mul_comm, Z.add_comm.
Qed.

Lemma mul_comm (x y : float) : x * y = y * x.
Proof. apply Prim2SF_inj. rewrite !mul_spec. apply SF64mul_comm. Qed.

End Order.

(** * Multiplying by one, adding to zero, subtracting from itself *)

Lemma mul_2_52 (m : positive) : (4503599627370496 * m)%positive = Pos.iter xO m 52.
Proof. reflexivity. Qed.

Lemma shr_52 (m : positive) :
  iter_pos shr_1 52
    {| shr_m := Zpos (Pos.iter xO m 52); shr_r := false; shr_s := false |} =
  {| shr_m := Zpos m; shr_r := false; shr_s := false |}.
Proof. reflexivity. Qed.

Lemma digits_shift (m : positive) :
  Zpos (digits2_pos (Pos.iter xO m 52)) = (Zpos (digits2_pos m) + 52)%Z.
Proof. cbn. lia. Qed.

Lemma SF64mul_one (a : spec_float) :
  valid_binary a = true -> SF64mul SFone64 a = a.
Proof.
  destruct a as [s|s| |s m e]; [reflexivity|reflexivity|reflexivity|].
  unfold SpecFloat.valid_binary, bounded, canonical_mantissa.
  intros Hb. apply andb_prop in Hb. destruct Hb as [Hc He].
  apply Z.eqb_eq in Hc.
  unfold SF64mul, SFone64, SFmul, binary_round_aux.
  rewrite (mul_2_52 m).
  unfold shr_fexp at 1. unfold Zdigits2. rewrite digits_shift.
  replace (fexp prec emax (Z.pos (digits2_pos m) + 52 + (-52 + e)) - (-52 + e))%Z
    with 52%Z.
  2:{ replace (Z.pos (digits2_pos m) + 52 + (-52 + e))%Z
        with (Z.pos (digits2_pos m) + e)%Z by lia. rewrite Hc. lia. }
  unfold shr at 1. change (shr_record_of_loc (Z.pos (Pos.iter xO m 52)) loc_Exact)
    with {| shr_m := Zpos (Pos.iter xO m 52); shr_r := false; shr_s := false |}.
  rewrite shr_52.
  replace (-52 + e + 52)%Z with e by lia.
  cbn [loc_of_shr_record shr_m shr_r shr_s round_nearest_even].
  unfold shr_fexp, Zdigits2. rewrite Hc, Z.sub_diag.
  cbn [shr shr_record_of_loc shr_m xorb].
  rewrite He. reflexivity.
Qed.

Lemma SF64add_zero_l (a : spec_float) :
  SF64add (S754_zero false) a =
  match a with S754_zero true => S754_zero false | _ => a end.
Proof. destruct a as [[]|[]| |[] m e]; reflexivity. Qed.

Lemma SF64sub_self (a : spec_float) : zero_or_nan (SF64sub a a).
Proof.
  destruct a as [[]|[]| |s m e]; try exact I.
  unfold SF64sub, SFsub. rewrite Z.sub_diag. exact I.
Qed.

Lemma SF64sub_zero_or_nan (a b : spec_float) :
  zero_or_nan a -> zero_or_nan b -> zero_or_nan (SF64sub a b).
Proof.
  destruct a as [[]|[]| |sa ma ea], b as [[]|[]| |sb mb eb];
    simpl; intros [] []; exact I.
Qed.

Lemma SF64mul_zero_or_nan_l (a b : spec_float) :
  zero_or_nan a -> zero_or_nan (SF64mul a b).
Proof.
  destruct a as [sa|sa| |sa ma ea], b as [sb|sb| |sb mb eb];
    simpl; intros []; exact I.
Qed.

Lemma SF64div_zero_or_nan (a b : spec_float) :
  zero_or_nan a -> zero_or_nan b -> SF64div a b = S754_nan.
Proof.
  destruct a as [sa|sa| |sa ma ea], b as [sb|sb| |sb mb eb];
    simpl; intros [] []; reflexivity.
Qed.

Section OnePoint.
Local Open Scope float_scope.


Lemma one_mul (x : float) : 1 * x = x.
Proof.
  apply Prim2SF_inj. rewrite mul_spec.
  change (Prim2SF 1) with SFone64. apply SF64mul_one, Prim2SF_valid.
Qed.

Lemma zero_add (x : float) :
  0 + x = x \/ (Prim2SF x = S754_zero true /\ Prim2SF (0 + x) = S754_zero false).
Proof.
  destruct (Prim2SF x) as [[]|[]| |[] m e] eqn:E;
    try (left; apply Prim2SF_inj; rewrite add_spec, E; reflexivity).
  right. split; [reflexivity|]. rewrite add_spec, E. reflexivity.
Qed.

Lemma zero_add_zero_or_nan (x : float) :
  zero_or_nan (Prim2SF x) -> zero_or_nan (Prim2SF (0 + x)).
Proof.
  intros Hx. destruct (zero_add x) as [->|[_ ->]]; [exact Hx|exact I].
Qed.

(** The numerator and the divisor of the slope of a one-point table. *)
Lemma one_point_difference (u v : float) :
  zero_or_nan (Prim2SF (1 * (0 + u * v) - (0 + u) * (0 + v))).
Proof.
  rewrite one_mul, sub_spec.
  destruct (zero_add u) as [Hu|[Hu Hu0]].
  - destruct (zero_add v) as [Hv|[Hv Hv0]].
    + rewrite Hu, Hv.
      destruct (zero_add (u * v)) as [->|[Hp Hp0]].
      * apply SF64sub_self.
      * rewrite Hp, Hp0. exact I.
    + apply SF64sub_zero_or_nan.
      * apply zero_add_zero_or_nan. rewrite mul_spec, SF64mul_comm, Hv.
        now apply SF64mul_zero_or_nan_l.
      * rewrite mul_spec, SF64mul_comm, Hv0. now apply SF64mul_zero_or_nan_l.
  - apply SF64sub_zero_or_nan.
    + apply zero_add_zero_or_nan. rewrite mul_spec, Hu.
      now apply SF64mul_zero_or_nan_l.
    + rewrite mul_spec, Hu0. now apply SF64mul_zero_or_nan_l.
Qed.

End OnePoint.

(** * [Math.min] and [Math.max] return an extremum *)

Lemma has_nan_cons (x : float) (l : list float) :
  has_nan (x :: l) = false -> PrimFloat.is_nan x = false /\ has_nan l = false.
Proof. unfold has_nan. simpl. apply orb_false_elim. Qed.

Lemma Math_min_from_spec (values : list float) : forall lowest : float,
  has_nan values = false -> PrimFloat.is_nan lowest = false ->
  let r := Math_min_from lowest values in
  (r = lowest \/ In r values) /\ (r <=? lowest)%float = true /\
  forall x, In x values -> (r <=? x)%float = true.
Proof.
  induction values as [|number rest IH]; intros lowest Hn Hl; simpl.
  - split; [now left|]. split; [now apply leb_refl|]. intros x [].
  - apply has_nan_cons in Hn. destruct Hn as [Hnum Hrest]. rewrite Hnum.
    assert (Hstep : forall r : float,
      (number <=? lowest)%float = true ->
      (r = number \/ In r rest) /\ (r <=? number)%float = true /\
        (forall x, In x rest -> (r <=? x)%float = true) ->
      (r = lowest \/ number = r \/ In r rest) /\ (r <=? lowest)%float = true /\
        (forall x, number = x \/ In x rest -> (r <=? x)%float = true)).
    { intros r Hle (Hin & Hrn & Hall). split; [|split].
      - destruct Hin as [->|Hin]; auto.
      - now apply leb_trans with number.
      - intros x [<-|Hx]; auto. }
    destruct (is_neg_zero number && is_pos_zero lowest) eqn:Hz.
    + apply andb_prop in Hz. destruct Hz as [Hz1 Hz2].
      apply Hstep; [|now apply IH].
      now apply (zeros_leb number lowest (neg_zero_spec _ Hz1) (pos_zero_spec _ Hz2)).
    + destruct (number <? lowest)%float eqn:Hlt.
      * apply Hstep; [now apply ltb_leb|now apply IH].
      * destruct (IH lowest Hrest Hl) as (Hin & Hrl & Hall).
        split; [|split]; auto.
        -- destruct Hin as [->|Hin]; auto.
        -- intros x [<-|Hx]; auto.
           apply leb_trans with lowest; auto. now apply ltb_false_leb.
Qed.

Lemma Math_max_from_spec (values : list float) : forall highest : float,
  has_nan values = false -> PrimFloat.is_nan highest = false ->
  let r := Math_max_from highest values in
  (r = highest \/ In r values) /\ (highest <=? r)%float = true /\
  forall x, In x values -> (x <=? r)%float = true.
Proof.
  induction values as [|number rest IH]; intros highest Hn Hh; simpl.
  - split; [now left|]. split; [now apply leb_refl|]. intros x [].
  - apply has_nan_cons in Hn. destruct Hn as [Hnum Hrest]. rewrite Hnum.
    assert (Hstep : forall r : float,
      (highest <=? number)%float = true ->
      (r = number \/ In r rest) /\ (number <=? r)%float = true /\
        (forall x, In x rest -> (x <=? r)%float = true) ->
      (r = highest \/ number = r \/ In r rest) /\ (highest <=? r)%float = true /\
        (forall x, number = x \/ In x rest -> (x <=? r)%float = true)).
    { intros r Hle (Hin & Hrn & Hall). split; [|split].
      - destruct Hin as [->|Hin]; auto.
      - now apply leb_trans with number.
      - intros x [<-|Hx]; auto. }
    destruct (is_pos_zero number && is_neg_zero highest) eqn:Hz.
    + apply andb_prop in Hz. destruct Hz as [Hz1 Hz2].
      apply Hstep; [|now apply IH].
      now apply (zeros_leb highest number (neg_zero_spec _ Hz2) (pos_zero_spec _ Hz1)).
    + destruct (highest <? number)%float eqn:Hlt.
      * apply Hstep; [now apply ltb_leb|now apply IH].
      * destruct (IH highest Hrest Hh) as (Hin & Hrl & Hall).
        split; [|split]; auto.
        -- destruct Hin as [->|Hin]; auto.
        -- intros x [<-|Hx]; auto.
           apply leb_trans with highest; auto. now apply ltb_false_leb.
Qed.

Lemma Math_min_minimum (values : list float) :
  values <> [] -> has_nan values = false -> minimum_of values (Math_min values).
Proof.
  intros Hne Hn. unfold Math_min.
  destruct (Math_min_from_spec values infinity Hn eq_refl) as (Hin & _ & Hall).
  split; auto. destruct Hin as [Heq|Hin]; auto.
  destruct values as [|h t]; [congruence|].
  assert (Hh : h = infinity).
  { apply infinity_leb. rewrite <- Heq. apply Hall. now left. }
  rewrite Heq, <- Hh. now left.
Qed.

Lemma Math_max_maximum (values : list float) :
  values <> [] -> has_nan values = false -> maximum_of values (Math_max values).
Proof.
  intros Hne Hn. unfold Math_max.
  destruct (Math_max_from_spec values neg_infinity Hn eq_refl) as (Hin & _ & Hall).
  split; auto. destruct Hin as [Heq|Hin]; auto.
  destruct values as [|h t]; [congruence|].
  assert (Hh : h = neg_infinity).
  { apply leb_neg_infinity. rewrite <- Heq. apply Hall. now left. }
  rewrite Heq, <- Hh. now left.
Qed.

Lemma Math_min_from_nan (values : list float) : forall lowest : float,
  has_nan values = true -> Math_min_from lowest values = nan.
Proof.
  induction values as [|number rest IH]; intros lowest; simpl; [discriminate|].
  unfold has_nan. simpl. fold (has_nan rest).
  destruct (PrimFloat.is_nan number); simpl; [reflexivity|].
  intros Hr. destruct (_ && _); [|destruct (_ <? _)%float]; now apply IH.
Qed.

Lemma Math_max_from_nan (values : list float) : forall highest : float,
  has_nan values = true -> Math_max_from highest values = nan.
Proof.
  induction values as [|number rest IH]; intros highest; simpl; [discriminate|].
  unfold has_nan. simpl. fold (has_nan rest).
  destruct (PrimFloat.is_nan number); simpl; [reflexivity|].
  intros Hr. destruct (_ && _); [|destruct (_ <? _)%float]; now apply IH.
Qed.

(** * The first loop computes the five sums *)

Section Loops.
Context {A : Type} `{Arith A}.
Local Open Scope num_scope.

Lemma fold_accumulate (points : list (Point A)) : forall s : Sums A,
  fold_left accumulate points s =
  {| sumX := sum_from xs (sumX s) points;
     sumY := sum_from ys (sumY s) points;
     sumXY := sum_from xy (sumXY s) points;
     sumXX := sum_from xx (sumXX s) points;
     sumYY := sum_from (fun p => current p * current p) (sumYY s) points |}.
Proof.
  induction points as [|p rest IH]; intros s; simpl.
  - now destruct s.
  - now rewrite IH.
Qed.

Lemma first_loop_sums (points : list (Point A)) :
  let s := fold_left accumulate points sums_init in
  sumX s = Sigma xs points /\ sumY s = Sigma ys points /\
  sumXY s = Sigma xy points /\ sumXX s = Sigma xx points.
Proof. simpl. rewrite fold_accumulate. simpl. repeat split. Qed.

Lemma fold_accumulate_variation (m b meanY : A) (points : list (Point A)) :
  forall v : Variation A,
  fold_left (accumulate_variation m b meanY) points v =
  {| totalVariation :=
       sum_from (fun p => (current p - meanY) * (current p - meanY))
                (totalVariation v) points;
     explainedVariation :=
       sum_from (fun p => (m * voltage p + b - meanY) * (m * voltage p + b - meanY))
                (explainedVariation v) points |}.
Proof.
  induction points as [|p rest IH]; intros v; simpl.
  - now destruct v.
  - now rewrite IH.
Qed.

(** The result of the fit in terms of the sums. *)
Lemma fit_unfold (points : list (Point A)) :
  let n := of_length (length points) in
  let m := (n * Sigma xy points - Sigma xs points * Sigma ys points)
           / (n * Sigma xx points - Sigma xs points * Sigma xs points) in
  let b := (Sigma ys points - m * Sigma xs points) / n in
  let meanY := Sigma ys points / n in
  calculateLinearRegression points =
  {| slope := m; intercept := b;
     rSquared :=
       Sigma (fun p => (m * voltage p + b - meanY) * (m * voltage p + b - meanY)) points
       / Sigma (fun p => (current p - meanY) * (current p - meanY)) points |}.
Proof.
  unfold calculateLinearRegression.
  rewrite fold_accumulate_variation, fold_accumulate. reflexivity.
Qed.

Lemma slope_denominator_unfold (points : list (Point A)) :
  slope_denominator points =
  of_length (length points) * Sigma xx points - Sigma xs points * Sigma xs points.
Proof. unfold slope_denominator. rewrite fold_accumulate. reflexivity. Qed.

End Loops.

(** * The formulas of the fit and the segment *)

(** C1. For every sequence of measurements, in either arithmetic, the fit
    returns the slope (n·Σxy − Σx·Σy) / (n·Σx² − Σx·Σx) and the intercept
    (Σy − slope·Σx) / n, with n the length of the sequence and the sums taken
    over all its points. *)
Theorem C1_slope_and_intercept_formulas {A : Type} `{Arith A}
    (points : list (Point A)) :
  let n := of_length (length points) in
  let fit := calculateLinearRegression points in
  slope fit =
    ((n * Sigma xy points - Sigma xs points * Sigma ys points)
     / (n * Sigma xx points - Sigma xs points * Sigma xs points))%num
  /\ intercept fit = ((Sigma ys points - slope fit * Sigma xs points) / n)%num.
Proof.
  intros n fit. unfold fit. rewrite fit_unfold. simpl. split; reflexivity.
Qed.

(** C2. For every sequence of measurements, in either arithmetic, the fit
    returns rSquared = explainedVariation / totalVariation, where
    meanY = Σy / n, totalVariation = Σ(y − meanY)², explainedVariation =
    Σ(ŷ − meanY)² and ŷ = slope·x + intercept for the slope and intercept of
    the same fit. *)
Theorem C2_rSquared_formula {A : Type} `{Arith A} (points : list (Point A)) :
  let n := of_length (length points) in
  let fit := calculateLinearRegression points in
  let meanY := (Sigma ys points / n)%num in
  let predicted := fun p => (slope fit * voltage p + intercept fit)%num in
  let totalVariation :=
    Sigma (fun p => ((current p - meanY) * (current p - meanY))%num) points in
  let explainedVariation :=
    Sigma (fun p => ((predicted p - meanY) * (predicted p - meanY))%num) points in
  rSquared fit = (explainedVariation / totalVariation)%num.
Proof.
  intros n fit meanY predicted tv ev.
  unfold tv, ev, predicted, meanY, fit, n. rewrite fit_unfold. reflexivity.
Qed.

(** C4. [generateBestFitLine] returns the empty sequence when the gradient or
    the intercept is still null, and a sequence of exactly two points
    otherwise; no other length occurs. *)
Theorem C4_segment_empty_or_two_points (s : Component.State) :
  let segment := Component.eval Component.generateBestFitLine s in
  match Component.gradient s, Component.intercept s with
  | Some _, Some _ => length segment = 2
  | _, _ => segment = []
  end
  /\ (length segment = 0 \/ length segment = 2).
Proof.
  unfold Component.eval, Component.generateBestFitLine, Component.bind,
    Component.read_gradient, Component.read_intercept, Component.read_data,
    Component.ret.
  destruct s as [d [g|] [i|] r]; simpl; auto.
Qed.

(** A loop of writes folds its rounds over the variables and leaves the
    component alone. *)
Lemma for_of_writes {X : Type} (round : Imperative.Locals -> X -> Imperative.Locals)
    (body : X -> Imperative.M unit) :
  (forall x st, body x st =
     (tt, {| Imperative.component := Imperative.component st;
             Imperative.locals := round (Imperative.locals st) x |})) ->
  forall items st,
    Imperative.for_of items body st =
    (tt, {| Imperative.component := Imperative.component st;
            Imperative.locals := fold_left round items (Imperative.locals st) |}).
Proof.
  intros Hbody. induction items as [|x rest IH]; intros st; simpl.
  - now destruct st.
  - unfold Imperative.bind. rewrite Hbody, IH. reflexivity.
Qed.

Lemma first_loop_sums_of (points : list (Point float)) :
  forall l, sums_of (fold_left first_loop_round points l) =
            fold_left accumulate points (sums_of l).
Proof.
  induction points as [|p rest IH]; intros l; simpl; [reflexivity|].
  now rewrite IH.
Qed.

Lemma first_loop_keeps_variation (points : list (Point float)) :
  forall l, variation_of (fold_left first_loop_round points l) = variation_of l.
Proof.
  induction points as [|p rest IH]; intros l; simpl; [reflexivity|].
  now rewrite IH.
Qed.

Lemma second_loop_variation_of (m b meanY : float) (points : list (Point float)) :
  forall l, variation_of (fold_left (second_loop_round m b meanY) points l) =
            fold_left (accumulate_variation m b meanY) points (variation_of l).
Proof.
  induction points as [|p rest IH]; intros l; simpl; [reflexivity|].
  now rewrite IH.
Qed.

(** The body computes the regression of the table, whatever the variables
    held, and writes nothing but its variables. *)
Lemma body_computes_the_fit (st : Imperative.Store) :
  exists l', Imperative.calculateLinearRegression st =
    (fit64 (Component.data (Imperative.component st)),
     {| Imperative.component := Imperative.component st; Imperative.locals := l' |}).
Proof.
  destruct st as [c l].
  cbv [Imperative.calculateLinearRegression Imperative.bind Imperative.read_data
       Imperative.write Imperative.read Imperative.ret].
  cbn [Imperative.component Imperative.locals].
  rewrite (for_of_writes first_loop_round) by reflexivity.
  cbn [Imperative.component Imperative.locals].
  erewrite (for_of_writes (second_loop_round _ _ _)) by reflexivity.
  cbn [Imperative.component Imperative.locals].
  eexists. f_equal.
  unfold fit64, calculateLinearRegression. cbv zeta.
  change (@sums_init float binary64)
    with (sums_of (Imperative.set_sumYY 0 (Imperative.set_sumXX 0
                     (Imperative.set_sumXY 0 (Imperative.set_sumY 0
                        (Imperative.set_sumX 0 l)))))).
  rewrite <- first_loop_sums_of.
  set (l1 := fold_left first_loop_round (Component.data c) _).
  change (@variation_init float binary64)
    with (variation_of (Imperative.set_explainedVariation 0
                          (Imperative.set_totalVariation 0 l1))).
  rewrite <- second_loop_variation_of.
  reflexivity.
Qed.

(** The closure of the component returns what the body computes. *)
Lemma component_fit_is_the_body (s : Component.State) (l : Imperative.Locals) :
  Component.eval Component.calculateLinearRegression s =
  fst (Imperative.calculateLinearRegression
         {| Imperative.component := s; Imperative.locals := l |}).
Proof.
  destruct (body_computes_the_fit
              {| Imperative.component := s; Imperative.locals := l |}) as [l' E].
  rewrite E. reflexivity.
Qed.

(** C5. The fit is deterministic and pure: called twice in a row, on any
    store, the body returns the same slope, intercept and rSquared bit for
    bit, namely the regression of the table, although the second call finds
    the variables the first one left; and neither call changes the table or
    any other part of the state of the component. *)
Theorem C5_fit_deterministic_and_pure (st : Imperative.Store) :
  let '(r1, st1) := Imperative.calculateLinearRegression st in
  let '(r2, st2) := Imperative.calculateLinearRegression st1 in
  Imperative.component st1 = Imperative.component st /\
  Imperative.component st2 = Imperative.component st /\
  r1 = fit64 (Component.data (Imperative.component st)) /\
  r1 = r2 /\
  PrimFloat.Leibniz.eqb (slope r1) (slope r2) = true /\
  PrimFloat.Leibniz.eqb (intercept r1) (intercept r2) = true /\
  PrimFloat.Leibniz.eqb (rSquared r1) (rSquared r2) = true.
Proof.
  destruct (body_computes_the_fit st) as [l1 E1]. rewrite E1.
  destruct (body_computes_the_fit
              {| Imperative.component := Imperative.component st;
                 Imperative.locals := l1 |}) as [l2 E2].
  rewrite E2. cbn [Imperative.component].
  repeat split; apply FloatAxioms.Leibniz.eqb_spec; reflexivity.
Qed.

(** C3. Once slope and intercept are available, [generateBestFitLine] on a
    non-empty table returns exactly the two points (minX, slope·minX +
    intercept) and (maxX, slope·maxX + intercept), where minX and maxX are
    [Math.min] and [Math.max] of all the voltages: a least and a greatest
    voltage of the table, wherever they stand in it, as soon as the voltages
    are numbers (with a NaN among them both are NaN). *)
Theorem C3_segment_spans_min_and_max (points : list (Point float))
    (m b : float) (r : option float) :
  points <> [] ->
  let s := {| Component.data := points; Component.gradient := Some m;
              Component.intercept := Some b; Component.rSquared := r |} in
  let voltages := map voltage points in
  let minX := Math_min voltages in
  let maxX := Math_max voltages in
  Component.eval Component.generateBestFitLine s =
    [ pt minX (m * minX + b); pt maxX (m * maxX + b) ]%float
  /\ (has_nan voltages = false ->
      minimum_of voltages minX /\ maximum_of voltages maxX)
  /\ (has_nan voltages = true -> minX = nan /\ maxX = nan).
Proof.
  intros Hne s voltages minX maxX.
  assert (Hv : voltages <> []).
  { unfold voltages. destruct points; [congruence|discriminate]. }
  split; [|split].
  - unfold s, Component.eval, Component.generateBestFitLine, Component.bind,
      Component.read_gradient, Component.read_intercept, Component.read_data,
      Component.ret, pt. simpl.
    fold voltages. fold minX. fold maxX.
    now rewrite (mul_comm minX m), (mul_comm maxX m).
  - intros Hn. split; [now apply Math_min_minimum|now apply Math_max_maximum].
  - intros Hn. split; [now apply Math_min_from_nan|now apply Math_max_from_nan].
Qed.

Lemma C3_segment_spans_min_and_max_witness :
  Component.eval Component.generateBestFitLine
    {| Component.data := [pt 2 5; pt 0 1; pt 4 9; pt 1 3]%float;
       Component.gradient := Some 2%float; Component.intercept := Some 1%float;
       Component.rSquared := None |} =
    [ pt 0 1; pt 4 9 ]%float.
Proof.
  exact (proj1 (C3_segment_spans_min_and_max
                  [pt 2 5; pt 0 1; pt 4 9; pt 1 3]%float 2%float 1%float None
                  ltac:(discriminate))).
Defined.

(** * The sums in exact arithmetic *)

Section ExactSums.
Local Open Scope R_scope.

Implicit Types (f g : Point R -> R) (points : list (Point R)).

Lemma sum_from_shift f points : forall a : R,
  fold_left (fun acc p => acc + f p) points a =
  a + fold_left (fun acc p => acc + f p) points 0.
Proof.
  induction points as [|p rest IH]; intros a; simpl.
  - lra.
  - rewrite IH, (IH (0 + f p)). lra.
Qed.

Lemma Sigma_nil f : Sigma f [] = 0.
Proof. reflexivity. Qed.

Lemma Sigma_cons f p points : Sigma f (p :: points) = f p + Sigma f points.
Proof.
  unfold Sigma. simpl. rewrite sum_from_shift. lra.
Qed.

Lemma Sigma_perm f points points' :
  Permutation points points' -> Sigma f points = Sigma f points'.
Proof.
  induction 1 as [|p l l' _ IH|p q l|l l' l'' _ IH1 _ IH2].
  - reflexivity.
  - rewrite !Sigma_cons, IH. reflexivity.
  - rewrite !Sigma_cons. lra.
  - now rewrite IH1.
Qed.


Lemma Sigma_const f (c : R) points :
  (forall p, In p points -> f p = c) -> Sigma f points = INR (length points) * c.
Proof.
  induction points as [|p rest IH]; intros Hc.
  - simpl. rewrite Sigma_nil. lra.
  - change (length (p :: rest)) with (S (length rest)).
    rewrite Sigma_cons, IH, (Hc p), S_INR; auto using in_eq, in_cons. lra.
Qed.

Lemma Sigma_nonneg f points :
  (forall p, 0 <= f p) -> 0 <= Sigma f points.
Proof.
  intros Hf. induction points as [|p rest IH].
  - rewrite Sigma_nil. lra.
  - rewrite Sigma_cons. specialize (Hf p). lra.
Qed.

(** A sum of squares vanishes only if every term does. *)
Lemma Sigma_squares_zero f points :
  Sigma (fun p => f p * f p) points = 0 -> forall p, In p points -> f p = 0.
Proof.
  induction points as [|q rest IH]; intros Hs p Hin.
  - destruct Hin.
  - rewrite Sigma_cons in Hs.
    assert (Hr : 0 <= Sigma (fun p => f p * f p) rest).
    { apply Sigma_nonneg. intros. nra. }
    assert (Hq : 0 <= f q * f q) by nra.
    destruct Hin as [<-|Hin].
    + nra.
    + apply IH; auto. lra.
Qed.

(** Expansion of Σ (c·x − s)². *)
Lemma Sigma_square_expand (c s : R) points :
  Sigma (fun p => (c * voltage p - s) * (c * voltage p - s)) points =
  c * c * Sigma xx points - 2 * c * s * Sigma xs points
  + INR (length points) * (s * s).
Proof.
  induction points as [|p rest IH].
  - simpl. rewrite !Sigma_nil. lra.
  - rewrite !Sigma_cons, IH. change (length (p :: rest)) with (S (length rest)).
    rewrite S_INR. unfold xx, xs. simpl. lra.
Qed.

(** n times the divisor of the slope is Σ (n·x − Σx)². *)
Lemma denominator_as_squares points :
  INR (length points) * slope_denominator points =
  Sigma (fun p => (INR (length points) * voltage p - Sigma xs points)
                  * (INR (length points) * voltage p - Sigma xs points)) points.
Proof.
  rewrite Sigma_square_expand, slope_denominator_unfold. simpl. lra.
Qed.

Lemma length_pos_INR points (p : Point R) :
  In p points -> 0 < INR (length points).
Proof.
  destruct points; intros Hin; [destruct Hin|].
  apply lt_0_INR. simpl. lia.
Qed.

(** The divisor of the slope vanishes exactly when all abscissas agree. *)
Lemma denominator_zero_iff points :
  slope_denominator points = 0 <-> same_x points.
Proof.
  split.
  - intros Hd p q Hp Hq.
    pose proof (length_pos_INR _ _ Hp) as Hn.
    assert (Hz : forall r, In r points ->
               INR (length points) * voltage r - Sigma xs points = 0).
    { apply (Sigma_squares_zero
               (fun r => INR (length points) * voltage r - Sigma xs points)).
      rewrite <- denominator_as_squares, Hd. lra. }
    pose proof (Hz p Hp) as Hzp. pose proof (Hz q Hq) as Hzq.
    apply Rmult_eq_reg_l with (INR (length points)); lra.
  - intros Hs. destruct points as [|p0 rest].
    + rewrite slope_denominator_unfold. simpl. rewrite !Sigma_nil. lra.
    + rewrite slope_denominator_unfold.
      rewrite (Sigma_const xs (voltage p0)), (Sigma_const xx (voltage p0 * voltage p0)).
      * simpl num_sub. simpl num_mul. simpl of_length. lra.
      * intros p Hp. unfold xx. simpl. now rewrite (Hs p p0 Hp (in_eq _ _)).
      * intros p Hp. unfold xs. apply Hs; auto using in_eq.
Qed.


End ExactSums.


(** * Consequences for the fit *)

Lemma float_neq (x y : float) : PrimFloat.Leibniz.eqb x y = false -> x <> y.
Proof.
  intros Hf Heq. apply FloatAxioms.Leibniz.eqb_spec in Heq. congruence.
Qed.

(** The slope of a one-point table, written out. *)
Lemma fit64_one_point (x y : float) :
  slope (fit64 [pt x y]) =
  ((1 * (0 + x * y) - (0 + x) * (0 + y))
   / (1 * (0 + x * x) - (0 + x) * (0 + x)))%float.
Proof. reflexivity. Qed.

Lemma one_point_slope_nan (x y : float) :
  PrimFloat.is_nan (slope (fit64 [pt x y])) = true.
Proof.
  rewrite fit64_one_point. apply is_nan_spec. rewrite div_spec.
  apply SF64div_zero_or_nan; apply one_point_difference.
Qed.

(** A quotient by a zero is NaN or an infinity. *)
Lemma div_by_zero_not_finite (a b : float) :
  PrimFloat.is_zero b = true -> PrimFloat.is_finite (a / b)%float = false.
Proof.
  unfold PrimFloat.is_zero, PrimFloat.is_finite, PrimFloat.is_nan,
    PrimFloat.is_infinity.
  rewrite !FloatAxioms.eqb_spec, abs_spec, div_spec.
  change (Prim2SF PrimFloat.zero) with (S754_zero false).
  change (Prim2SF infinity) with (S754_infinity false).
  destruct (Prim2SF a) as [[]|[]| |[] ma ea], (Prim2SF b) as [[]|[]| |[] mb eb];
    intros Hz; try discriminate Hz; reflexivity.
Qed.

Lemma slope_as_quotient (points : list (Point float)) :
  exists numerator : float,
    slope (fit64 points) = (numerator / slope_denominator points)%float.
Proof.
  eexists. unfold fit64, calculateLinearRegression, slope_denominator. reflexivity.
Qed.

Section ExactFit.
Local Open Scope R_scope.

Implicit Types points : list (Point R).

Lemma fit_R_perm points points' :
  Permutation points points' -> fit_R points' = fit_R points.
Proof.
  intros Hp. unfold fit_R. rewrite !fit_unfold. cbv zeta.
  rewrite <- (Permutation_length Hp).
  repeat rewrite <- (Sigma_perm _ points points' Hp). reflexivity.
Qed.




Lemma centroid_exact points :
  points <> [] ->
  slope (fit_R points) * (Sigma xs points / INR (length points))
  + intercept (fit_R points)
  = Sigma ys points / INR (length points).
Proof.
  intros Hne. unfold fit_R. rewrite fit_unfold. cbv zeta. simpl.
  assert (Hn : INR (length points) <> 0).
  { destruct points; [congruence|]. apply not_0_INR. discriminate. }
  generalize ((INR (length points) * Sigma xy points
               - Sigma xs points * Sigma ys points)
              / (INR (length points) * Sigma xx points
                 - Sigma xs points * Sigma xs points)).
  intros m. field. exact Hn.
Qed.

End ExactFit.

(** * The first two points of the table can be exchanged *)

Lemma SF64add_comm (a b : spec_float) : SF64add a b = SF64add b a.
Proof.
  destruct a as [[]|[]| |sa ma ea], b as [[]|[]| |sb mb eb]; try reflexivity.
  unfold SF64add, SFadd. now rewrite Z.min_comm, Z.add_comm.
Qed.

Lemma SF64add_from_zero_swap (a b : spec_float) :
  SF64add (SF64add (S754_zero false) a) b =
  SF64add (SF64add (S754_zero false) b) a.
Proof.
  rewrite !SF64add_zero_l.
  destruct a as [[]|[]| |sa ma ea], b as [[]|[]| |sb mb eb];
    try reflexivity; apply SF64add_comm.
Qed.

Lemma add_from_zero_swap (a b : float) : (0 + a + b = 0 + b + a)%float.
Proof.
  apply Prim2SF_inj. rewrite !add_spec.
  change (Prim2SF 0) with (S754_zero false). apply SF64add_from_zero_swap.
Qed.

Lemma Sigma_swap_first_two (f : Point float -> float) (p q : Point float)
    (rest : list (Point float)) :
  Sigma f (p :: q :: rest) = Sigma f (q :: p :: rest).
Proof.
  unfold Sigma. simpl. now rewrite add_from_zero_swap.
Qed.

Lemma fit64_exchange (p q : Point float) (rest : list (Point float)) :
  fit64 (q :: p :: rest) = fit64 (p :: q :: rest).
Proof.
  unfold fit64. rewrite !fit_unfold. cbv zeta.
  change (length (q :: p :: rest)) with (length (p :: q :: rest)).
  repeat rewrite (Sigma_swap_first_two _ q p rest). reflexivity.
Qed.

(** A permutation that leaves the points from the third one on in place. *)
Lemma fit64_perm_first_two (points points' : list (Point float)) :
  Permutation points points' -> skipn 2 points' = skipn 2 points ->
  fit64 points' = fit64 points.
Proof.
  intros Hp Hs. pose proof (Permutation_length Hp) as Hlen.
  destruct points as [|a [|b rest]].
  - apply Permutation_nil in Hp. now subst.
  - apply Permutation_length_1_inv in Hp. now subst.
  - destruct points' as [|a' [|b' rest']]; try discriminate Hlen.
    simpl in Hs. subst rest'.
    apply (Permutation_app_inv_r rest [a; b] [a'; b']) in Hp.
    apply Permutation_length_2_inv in Hp. destruct Hp as [E|E].
    + injection E as -> ->. reflexivity.
    + injection E as -> ->. apply fit64_exchange.
Qed.

(** * Small tables on the line y = 2x + 1, checked one by one *)







(** * The centroid when the voltages sum to zero *)

Lemma is_zero_spec (x : float) : PrimFloat.is_zero x = true -> is_zero_SF (Prim2SF x).
Proof.
  unfold PrimFloat.is_zero. rewrite FloatAxioms.eqb_spec.
  change (Prim2SF PrimFloat.zero) with (S754_zero false).
  destruct (Prim2SF x) as [[]|[]| |[] m e]; try discriminate; intros _; exact I.
Qed.

Lemma is_finite_spec (x : float) :
  PrimFloat.is_finite x = true -> is_finite_SF (Prim2SF x).
Proof.
  unfold PrimFloat.is_finite, PrimFloat.is_nan, PrimFloat.is_infinity.
  rewrite !FloatAxioms.eqb_spec, abs_spec.
  change (Prim2SF infinity) with (S754_infinity false).
  destruct (Prim2SF x) as [[]|[]| |[] m e]; try discriminate; intros _; exact I.
Qed.

Lemma is_positive_spec (x : float) :
  (0 <? x)%float = true -> is_positive_SF (Prim2SF x).
Proof.
  rewrite ltb_spec. change (Prim2SF 0) with (S754_zero false).
  destruct (Prim2SF x) as [[]|[]| |[] m e]; try discriminate; intros _; exact I.
Qed.

Lemma SF64div_zero_positive (z n : spec_float) :
  is_zero_SF z -> is_positive_SF n -> is_zero_SF (SF64div z n).
Proof.
  destruct z as [sz|sz| |sz mz ez]; try contradiction.
  destruct n as [sn|[]| |[] mn en]; try contradiction; intros _ _; exact I.
Qed.

Lemma SF64mul_finite_zero (m z : spec_float) :
  is_finite_SF m -> is_zero_SF z -> is_zero_SF (SF64mul m z).
Proof.
  destruct z as [sz|sz| |sz mz ez]; try contradiction.
  destruct m as [sm|sm| |sm mm em]; try contradiction; intros _ _; exact I.
Qed.

Lemma SF64sub_zero_r (y z : spec_float) :
  is_zero_SF z ->
  SF64sub y z = y \/ (is_zero_SF y /\ is_zero_SF (SF64sub y z)).
Proof.
  destruct z as [[]|sz| |sz mz ez]; try contradiction; intros _;
    destruct y as [[]|[]| |sy my ey];
    try (left; reflexivity); right; split; exact I.
Qed.

Lemma SF64add_zero_any (z d : spec_float) :
  is_zero_SF z ->
  SF64add z d = d \/ (is_zero_SF d /\ is_zero_SF (SF64add z d)).
Proof.
  destruct z as [[]|sz| |sz mz ez]; try contradiction; intros _;
    destruct d as [[]|[]| |sd md ed];
    try (left; reflexivity); right; split; exact I.
Qed.

Lemma SFeqb_zeros (a b : spec_float) :
  is_zero_SF a -> is_zero_SF b -> SFeqb a b = true.
Proof.
  destruct a as [sa|sa| |sa ma ea]; try contradiction.
  destruct b as [sb|sb| |sb mb eb]; try contradiction. reflexivity.
Qed.

Lemma SFeqb_refl (a : spec_float) : a <> S754_nan -> SFeqb a a = true.
Proof. intros Ha. unfold SFeqb. now rewrite SFcompare_refl. Qed.

(** With a finite slope [m], voltages summing to a zero [z] and a positive
    count [n], the line at the mean voltage returns the mean current. *)
Lemma centred_SF (m z y n : spec_float) :
  is_finite_SF m -> is_zero_SF z -> is_positive_SF n ->
  SF64div y n <> S754_nan ->
  SFeqb (SF64add (SF64mul m (SF64div z n)) (SF64div (SF64sub y (SF64mul m z)) n))
        (SF64div y n) = true.
Proof.
  intros Hm Hz Hn Hy.
  pose proof (SF64mul_finite_zero m _ Hm (SF64div_zero_positive z n Hz Hn)) as Z1.
  pose proof (SF64mul_finite_zero m z Hm Hz) as Z2.
  destruct (SF64sub_zero_r y _ Z2) as [->|[Hy0 Hs0]].
  - destruct (SF64add_zero_any _ (SF64div y n) Z1) as [->|[Hd0 Ha0]].
    + now apply SFeqb_refl.
    + now apply SFeqb_zeros.
  - pose proof (SF64div_zero_positive _ n Hs0 Hn) as D1.
    pose proof (SF64div_zero_positive y n Hy0 Hn) as D2.
    apply SFeqb_zeros; [|exact D2].
    destruct (SF64add_zero_any _ (SF64div (SF64sub y (SF64mul m z)) n) Z1)
      as [->|[_ Ha0]]; assumption.
Qed.

Lemma centred_centroid (points : list (Point float)) :
  let n := of_length (length points) in
  PrimFloat.is_zero (Sigma xs points) = true ->
  PrimFloat.is_finite (slope (fit64 points)) = true ->
  (0 <? n)%float = true ->
  PrimFloat.is_nan (Sigma ys points / n)%float = false ->
  (slope (fit64 points) * (Sigma xs points / n) + intercept (fit64 points)
   =? Sigma ys points / n)%float = true.
Proof.
  intros n Hz Hm Hn Hy.
  assert (Hi : intercept (fit64 points)
               = ((Sigma ys points - slope (fit64 points) * Sigma xs points) / n)%float).
  { unfold fit64. rewrite fit_unfold. reflexivity. }
  rewrite Hi. generalize dependent (slope (fit64 points)). intros m Hm _.
  rewrite FloatAxioms.eqb_spec, add_spec, !mul_spec, !div_spec, sub_spec, mul_spec.
  apply centred_SF.
  - now apply is_finite_spec.
  - now apply is_zero_spec.
  - now apply is_positive_spec.
  - rewrite <- div_spec. now apply not_nan_spec.
Qed.


Example centred_table_qualifies :
  PrimFloat.is_zero (Sigma xs centred) = true /\
  PrimFloat.is_finite (slope (fit64 centred)) = true /\
  (0 <? of_length (length centred))%float = true /\
  PrimFloat.is_nan (Sigma ys centred / of_length (length centred))%float = false.
Proof. repeat split; vm_compute; reflexivity. Qed.

Example first_two_exchanged :
  Permutation table (pt 0.5 9.33 :: pt 0 0 :: skipn 2 table) /\
  fit64 (pt 0.5 9.33 :: pt 0 0 :: skipn 2 table) = fit64 table.
Proof. split; [apply perm_swap|]. vm_compute. reflexivity. Qed.

(** * The results of the fit in the two arithmetics *)

(** C6, as amended. On binary64 the fit of a permuted table has the same
    slope, intercept and rSquared as the fit of the table when the permutation
    moves only the first two points.  In exact arithmetic this holds for every
    permutation. *)
Theorem C6_order_invariance :
  (forall points points' : list (Point float),
     Permutation points points' -> skipn 2 points' = skipn 2 points ->
     slope (fit64 points') = slope (fit64 points) /\
     intercept (fit64 points') = intercept (fit64 points) /\
     rSquared (fit64 points') = rSquared (fit64 points)) /\
  (forall points points' : list (Point R),
     Permutation points points' ->
     slope (fit_R points') = slope (fit_R points) /\
     intercept (fit_R points') = intercept (fit_R points) /\
     rSquared (fit_R points') = rSquared (fit_R points)).
Proof.
  split.
  - intros points points' Hp Hs.
    rewrite (fit64_perm_first_two _ _ Hp Hs). repeat split.
  - intros points points' Hp. rewrite (fit_R_perm _ _ Hp). repeat split.
Qed.

(** C6, as stated, fails on binary64: the table read backwards is a
    permutation of the table and has another rSquared; three readings at the
    voltage 0.3 read backwards have the slope 4 instead of 0. *)
Lemma C6_counterexample :
  Permutation table (rev table) /\
  rSquared (fit64 table) = 0.98852789064693924%float /\
  rSquared (fit64 (rev table)) = 0.98852789064693902%float /\
  rSquared (fit64 (rev table)) <> rSquared (fit64 table) /\
  Permutation thrice (rev thrice) /\
  slope (fit64 thrice) = 0%float /\
  slope (fit64 (rev thrice)) = 4%float.
Proof.
  split; [apply Permutation_rev|].
  split; [vm_compute; reflexivity|]. split; [vm_compute; reflexivity|].
  split; [apply float_neq; vm_compute; reflexivity|].
  split; [apply Permutation_rev|].
  split; vm_compute; reflexivity.
Qed.

(** C7, as amended. For the table of the component the fit returns the
    slope 24.76566666666665, which is 24.77 to two decimals (74297/3000 when
    the decimals of the table are read exactly), and the rSquared
    0.98852789064693924, below 1 and within 0.012 of it. *)
Theorem C7_fit_of_the_table :
  slope (fit64 table) = 24.76566666666665%float /\
  rSquared (fit64 table) = 0.98852789064693924%float /\
  ((24.765 <? slope (fit64 table)) && (slope (fit64 table) <? 24.766))%float = true /\
  ((0.988 <? rSquared (fit64 table)) && (rSquared (fit64 table) <? 1))%float = true /\
  slope (fit_R table_exact) = (74297 / 3000)%R.
Proof.
  repeat split; try (vm_compute; reflexivity).
  unfold fit_R. rewrite fit_unfold. cbv zeta. cbn. lra.
Qed.

(** C7, as stated, fails: the slope is more than 0.17 above 24.59. *)
Lemma C7_counterexample :
  (0.17 <? slope (fit64 table) - 24.59)%float = true /\
  (PrimFloat.abs (slope (fit64 table) - 24.59) <=? 0.005)%float = false.
Proof. split; vm_compute; reflexivity. Qed.

(** C8, as amended. The fit of a one-point table has a NaN slope, whatever
    the point; whenever the divisor n·Σx² − (Σx)² computed on binary64 is a
    zero, the slope is NaN or an infinity; and in exact arithmetic that
    divisor is zero exactly when all voltages are the same. *)
Theorem C8_degenerate_tables :
  (forall x y : float, PrimFloat.is_nan (slope (fit64 [pt x y])) = true) /\
  (forall points : list (Point float),
     PrimFloat.is_zero (slope_denominator points) = true ->
     PrimFloat.is_finite (slope (fit64 points)) = false) /\
  (forall points : list (Point R),
     slope_denominator points = 0%R <-> same_x points).
Proof.
  split; [exact one_point_slope_nan|]. split.
  - intros points Hz. destruct (slope_as_quotient points) as [num ->].
    now apply div_by_zero_not_finite.
  - exact denominator_zero_iff.
Qed.

(** C8, as stated, fails on binary64: three readings at the voltage 0.3
    give a divisor that is not zero and the finite slope 0. *)
Lemma C8_counterexample :
  same_x thrice /\ length thrice = 3 /\
  PrimFloat.is_zero (slope_denominator thrice) = false /\
  slope (fit64 thrice) = 0%float /\
  PrimFloat.is_finite (slope (fit64 thrice)) = true.
Proof.
  split; [|repeat split; vm_compute; reflexivity].
  intros p q Hp Hq. simpl in Hp, Hq.
  destruct Hp as [<-|[<-|[<-|[]]]]; destruct Hq as [<-|[<-|[<-|[]]]]; reflexivity.
Qed.



(** C10, as amended. On binary64 the fitted line passes through the
    centroid, slope·(Σx/n) + intercept = Σy/n, for the table of the component,
    and for every table whose voltages sum to zero when the slope is finite
    and Σy/n is a number.  In exact arithmetic it does for every non-empty
    table whose divisor n·Σx² − (Σx)² is not zero. *)
Theorem C10_line_through_centroid :
  (slope (fit64 table) * (Sigma xs table / of_length (length table))
   + intercept (fit64 table))%float
  = (Sigma ys table / of_length (length table))%float /\
  (forall points : list (Point float),
     let n := of_length (length points) in
     PrimFloat.is_zero (Sigma xs points) = true ->
     PrimFloat.is_finite (slope (fit64 points)) = true ->
     (0 <? n)%float = true ->
     PrimFloat.is_nan (Sigma ys points / n)%float = false ->
     (slope (fit64 points) * (Sigma xs points / n) + intercept (fit64 points)
      =? Sigma ys points / n)%float = true) /\
  (forall points : list (Point R),
     points <> [] -> slope_denominator points <> 0%R ->
     (slope (fit_R points) * (Sigma xs points / INR (length points))
      + intercept (fit_R points))%R
     = (Sigma ys points / INR (length points))%R).
Proof.
  split; [vm_compute; reflexivity|]. split.
  - exact centred_centroid.
  - intros points Hne _. now apply centroid_exact.
Qed.

(** C10, as stated, fails on binary64: for three points with divisor 6 the
    two sides differ in the last place. *)
Lemma C10_counterexample :
  slope_denominator skew = 6%float /\
  (slope (fit64 skew) * (Sigma xs skew / of_length (length skew))
   + intercept (fit64 skew))%float = 0.33333333333333337%float /\
  (Sigma ys skew / of_length (length skew))%float = 0.3333333333333333%float /\
  (slope (fit64 skew) * (Sigma xs skew / of_length (length skew))
   + intercept (fit64 skew))%float
  <> (Sigma ys skew / of_length (length skew))%float.
Proof.
  repeat split; try (vm_compute; reflexivity).
  apply float_neq. vm_compute. reflexivity.
Qed.

(** * NaN and the infinities in the results *)

Section NaN.
Local Open Scope float_scope.

Lemma nan_add_l (a b : float) : is_nan a = true -> is_nan (a + b) = true.
Proof.
  rewrite !is_nan_spec, add_spec. intros ->. reflexivity.
Qed.

Lemma nan_add_r (a b : float) : is_nan b = true -> is_nan (a + b) = true.
Proof.
  rewrite !is_nan_spec, add_spec. intros ->.
  destruct (Prim2SF a) as [[]|[]| |[] m e]; reflexivity.
Qed.

Lemma nan_sub_l (a b : float) : is_nan a = true -> is_nan (a - b) = true.
Proof.
  rewrite !is_nan_spec, sub_spec. intros ->. reflexivity.
Qed.

Lemma nan_sub_r (a b : float) : is_nan b = true -> is_nan (a - b) = true.
Proof.
  rewrite !is_nan_spec, sub_spec. intros ->.
  destruct (Prim2SF a) as [[]|[]| |[] m e]; reflexivity.
Qed.

Lemma nan_mul_l (a b : float) : is_nan a = true -> is_nan (a * b) = true.
Proof.
  rewrite !is_nan_spec, mul_spec. intros ->. reflexivity.
Qed.

Lemma nan_mul_r (a b : float) : is_nan b = true -> is_nan (a * b) = true.
Proof.
  rewrite !is_nan_spec, mul_spec. intros ->.
  destruct (Prim2SF a) as [[]|[]| |[] m e]; reflexivity.
Qed.

Lemma nan_div_l (a b : float) : is_nan a = true -> is_nan (a / b) = true.
Proof.
  rewrite !is_nan_spec, div_spec. intros ->. reflexivity.
Qed.

(** A sum stays NaN once it is NaN, and becomes NaN with its first NaN
    term. *)
Lemma sum_from_nan (f : Point float -> float) (points : list (Point float)) :
  forall a : float, is_nan a = true -> is_nan (sum_from f a points) = true.
Proof.
  induction points as [|p rest IH]; intros a Ha; simpl.
  - exact Ha.
  - apply IH. now apply nan_add_l.
Qed.

Lemma Sigma_nan (f : Point float -> float) (points : list (Point float)) :
  points <> [] -> (forall p, is_nan (f p) = true) ->
  is_nan (Sigma f points) = true.
Proof.
  intros Hne Hf. destruct points as [|p rest]; [congruence|].
  unfold Sigma. simpl. apply (sum_from_nan f rest). apply nan_add_r, Hf.
Qed.

(** A NaN slope makes the intercept and rSquared NaN. *)
Lemma nan_slope_propagates (points : list (Point float)) :
  is_nan (slope (fit64 points)) = true ->
  is_nan (intercept (fit64 points)) = true /\
  is_nan (rSquared (fit64 points)) = true.
Proof.
  unfold fit64. rewrite fit_unfold. cbv zeta. simpl. intros Hs. split.
  - apply nan_div_l, nan_sub_r, nan_mul_l, Hs.
  - destruct points as [|p0 rest]; [reflexivity|].
    apply nan_div_l, Sigma_nan; [discriminate|].
    intros p. apply nan_mul_l, nan_sub_l, nan_add_l, nan_mul_l, Hs.
Qed.

(** Infinity times anything, plus anything, is an infinity or NaN. *)
Lemma infinite_line_not_finite (inf g i : float) :
  is_infinity inf = true -> is_finite (inf * g + i) = false.
Proof.
  unfold is_finite, is_infinity, PrimFloat.is_nan.
  rewrite !FloatAxioms.eqb_spec, !abs_spec, add_spec, mul_spec.
  change (Prim2SF infinity) with (S754_infinity false).
  destruct (Prim2SF inf) as [[]|[]| |[] mi ei]; try discriminate; intros _;
    destruct (Prim2SF g) as [[]|[]| |[] mg eg];
    destruct (Prim2SF i) as [[]|[]| |[] m e]; reflexivity.
Qed.

End NaN.

(** * Further properties of the component, on binary64 *)

(** X7. The effect stores the fit of the table in the three cells, whatever
    they held before, and leaves the table as it is; a second run of the
    effect changes nothing. *)
Theorem X7_effect_stores_the_fit (s : Component.State) :
  let s' := Component.exec Component.effect s in
  Component.data s' = Component.data s /\
  Component.gradient s' = Some (slope (fit64 (Component.data s))) /\
  Component.intercept s' = Some (intercept (fit64 (Component.data s))) /\
  Component.rSquared s' = Some (rSquared (fit64 (Component.data s))) /\
  Component.exec Component.effect s' = s'.
Proof.
  destruct s as [points g i r]. repeat split.
Qed.

(** X8. After the effect, on any state, [generateBestFitLine] returns two
    points: the fitted line evaluated at [Math.min] and at [Math.max] of the
    voltages of the table. It changes no cell. *)
Theorem X8_segment_after_effect (s : Component.State) :
  let s' := Component.exec Component.effect s in
  let fit := fit64 (Component.data s) in
  let voltages := map voltage (Component.data s) in
  Component.eval Component.generateBestFitLine s' =
    [ pt (Math_min voltages) (slope fit * Math_min voltages + intercept fit);
      pt (Math_max voltages) (slope fit * Math_max voltages + intercept fit) ]%float
  /\ Component.exec Component.generateBestFitLine s' = s'.
Proof.
  destruct s as [points g i r]. cbv zeta. split; [|reflexivity].
  unfold Component.eval, Component.exec, Component.effect,
    Component.generateBestFitLine, Component.calculateLinearRegression,
    Component.bind, Component.ret, Component.read_data, Component.read_gradient,
    Component.read_intercept, Component.setGradient, Component.setIntercept,
    Component.setRSquared, pt, fit64. simpl.
  now rewrite (mul_comm (Math_min (map voltage points))),
              (mul_comm (Math_max (map voltage points))).
Qed.

(** X9. For a non-empty table whose voltages are numbers, the first point of
    the segment is not to the right of the second: Math.min of the voltages
    is at most Math.max of them. *)
Theorem X9_segment_left_to_right (values : list float) :
  values <> [] -> has_nan values = false ->
  (Math_min values <=? Math_max values)%float = true.
Proof.
  intros Hne Hn.
  destruct (Math_min_minimum values Hne Hn) as [_ Hmin].
  destruct (Math_max_maximum values Hne Hn) as [Hin _].
  now apply Hmin.
Qed.

Lemma X9_segment_left_to_right_witness :
  (Math_min [2; 0; 4; 1] <=? Math_max [2; 0; 4; 1])%float = true.
Proof.
  apply (X9_segment_left_to_right [2; 0; 4; 1]%float).
  - discriminate.
  - reflexivity.
Defined.

(** X10. Whenever the slope is NaN, on any table, the intercept and rSquared
    are NaN as well. *)
Theorem X10_nan_slope_propagates (points : list (Point float)) :
  PrimFloat.is_nan (slope (fit64 points)) = true ->
  PrimFloat.is_nan (intercept (fit64 points)) = true /\
  PrimFloat.is_nan (rSquared (fit64 points)) = true.
Proof. apply nan_slope_propagates. Qed.

Lemma X10_nan_slope_propagates_witness :
  PrimFloat.is_nan (intercept (fit64 steep)) = true /\
  PrimFloat.is_nan (rSquared (fit64 steep)) = true.
Proof.
  apply (X10_nan_slope_propagates steep). vm_compute. reflexivity.
Defined.

(** X11. The fit of a one-point table is NaN in all three results, whatever
    the point. *)
Theorem X11_one_point_all_nan (x y : float) :
  PrimFloat.is_nan (slope (fit64 [pt x y])) = true /\
  PrimFloat.is_nan (intercept (fit64 [pt x y])) = true /\
  PrimFloat.is_nan (rSquared (fit64 [pt x y])) = true.
Proof.
  pose proof (one_point_slope_nan x y) as Hs.
  split; [exact Hs|]. now apply nan_slope_propagates.
Qed.

(** X12. On an empty table with both cells set, [generateBestFitLine] still
    returns two points; their voltages are +Infinity and -Infinity, and their
    currents are not finite, whatever the gradient and the intercept. *)
Theorem X12_segment_of_empty_table (g i : float) (r : option float) :
  let s := {| Component.data := []; Component.gradient := Some g;
              Component.intercept := Some i; Component.rSquared := r |} in
  exists c1 c2 : float,
    Component.eval Component.generateBestFitLine s =
      [ pt infinity c1; pt neg_infinity c2 ] /\
    PrimFloat.is_finite c1 = false /\ PrimFloat.is_finite c2 = false.
Proof.
  cbv zeta. exists (infinity * g + i)%float, (neg_infinity * g + i)%float.
  split; [reflexivity|].
  split; apply infinite_line_not_finite; reflexivity.
Qed.

(** * Exchanging the first two points *)

(** X13. On binary64, exchanging the first two points of a table does not
    change the fit, rounding included. *)
Theorem X13_first_two_points_exchange (p q : Point float)
    (rest : list (Point float)) :
  fit64 (q :: p :: rest) = fit64 (p :: q :: rest).
Proof.
  unfold fit64. rewrite !fit_unfold. cbv zeta.
  change (length (q :: p :: rest)) with (length (p :: q :: rest)).
  repeat rewrite (Sigma_swap_first_two _ q p rest). reflexivity.
Qed.

(** * The sign of rSquared, and rSquared of a table on its fitted line *)

Lemma binary_round_aux_sign (sx : bool) (mx ex : Z) (lx : location) :
  match binary_round_aux prec emax sx mx ex lx with
  | S754_zero s | S754_infinity s | S754_finite s _ _ => s = sx
  | S754_nan => True
  end.
Proof.
  unfold binary_round_aux.
  destruct (shr_fexp prec emax mx ex lx) as [mrs' e'].
  destruct (shr_fexp prec emax _ e' loc_Exact) as [mrs'' e''].
  destruct (shr_m mrs''); [reflexivity| |exact I].
  destruct (Z.leb e'' (emax - prec)); reflexivity.
Qed.

Lemma binary_round_aux_plus (mx ex : Z) (lx : location) :
  sign_plus (binary_round_aux prec emax false mx ex lx).
Proof.
  pose proof (binary_round_aux_sign false mx ex lx) as H.
  destruct (binary_round_aux prec emax false mx ex lx) as [s|s| |s m e];
    try subst s; exact I.
Qed.

Lemma SF64mul_self_plus (a : spec_float) : sign_plus (SF64mul a a).
Proof.
  destruct a as [[]|[]| |s m e]; try exact I.
  unfold SF64mul, SFmul. rewrite xorb_nilpotent. apply binary_round_aux_plus.
Qed.

Lemma SF64add_plus (a b : spec_float) :
  sign_plus a -> sign_plus b -> sign_plus (SF64add a b).
Proof.
  destruct a as [[]|[]| |[] ma ea]; try contradiction; intros _;
    destruct b as [[]|[]| |[] mb eb]; try contradiction; intros _; try exact I.
  unfold SF64add, SFadd, cond_Zopp, binary_normalize, binary_round.
  cbn [Z.add].
  destruct (shl_align _ _ _) as [mz ez]. apply binary_round_aux_plus.
Qed.

Lemma SF64div_plus (a b : spec_float) :
  sign_plus a -> sign_plus b -> sign_plus (SF64div a b).
Proof.
  destruct a as [[]|[]| |[] ma ea]; try contradiction; intros _;
    destruct b as [[]|[]| |[] mb eb]; try contradiction; intros _; try exact I.
  unfold SF64div, SFdiv.
  destruct (SFdiv_core_binary _ _ _ _ _ _) as [[mz ez] lz].
  apply binary_round_aux_plus.
Qed.

Lemma sum_of_squares_plus (g : Point float -> float) (points : list (Point float)) :
  forall a : float, sign_plus (Prim2SF a) ->
  sign_plus (Prim2SF (sum_from (fun p => (g p * g p)%float) a points)).
Proof.
  induction points as [|p rest IH]; intros a Ha; simpl; [exact Ha|].
  apply IH. rewrite add_spec, mul_spec.
  apply SF64add_plus; [exact Ha|apply SF64mul_self_plus].
Qed.

Lemma rSquared_plus (points : list (Point float)) :
  sign_plus (Prim2SF (rSquared (fit64 points))).
Proof.
  unfold fit64. rewrite fit_unfold. cbv zeta. simpl.
  rewrite div_spec. apply SF64div_plus.
  - apply (sum_of_squares_plus (fun p => _) points 0%float). exact I.
  - apply (sum_of_squares_plus (fun p => _) points 0%float). exact I.
Qed.

(** X3. On binary64, for every table, the rSquared returned is never
    negative: it is not below zero and it is not the negative zero. *)
Theorem X3_rSquared_never_negative (points : list (Point float)) :
  (rSquared (fit64 points) <? 0)%float = false /\
  is_neg_zero (rSquared (fit64 points)) = false.
Proof.
  pose proof (rSquared_plus points) as Hp. split.
  - rewrite ltb_spec. change (Prim2SF 0) with (S754_zero false).
    destruct (Prim2SF (rSquared (fit64 points))) as [[]|[]| |[] m e];
      try contradiction; reflexivity.
  - unfold is_neg_zero. rewrite classify_spec. unfold SF64classify, SFclassify.
    destruct (Prim2SF (rSquared (fit64 points))) as [[]|[]| |[] m e];
      try contradiction; try reflexivity.
    destruct (Z.eqb _ _); reflexivity.
Qed.

(** A finite number that is not zero, divided by itself, is one. *)
Lemma SF64div_self (s : bool) (m : positive) (e : Z) :
  SF64div (S754_finite s m e) (S754_finite s m e) = SFone64.
Proof.
  unfold SF64div, SFdiv, SFdiv_core_binary.
  replace (Zdigits2 (Z.pos m) + e - (Zdigits2 (Z.pos m) + e))%Z with 0%Z by lia.
  replace (e - e)%Z with 0%Z by lia.
  change (Z.min (fexp prec emax 0) 0) with (-53)%Z.
  change (0 - -53)%Z with 53%Z. cbv iota beta.
  destruct (Z.div_eucl (Z.shiftl (Z.pos m) 53) (Z.pos m)) as [q r] eqn:E.
  assert (Hqr : q = (2 ^ 53)%Z /\ r = 0%Z).
  { pose proof (Z_div_mod (Z.shiftl (Z.pos m) 53) (Z.pos m) eq_refl) as H.
    rewrite E in H. destruct H as [H1 H2].
    rewrite Z.shiftl_mul_pow2 in H1 by lia.
    apply (Z.div_mod_unique (Z.pos m) q (2 ^ 53) r 0); lia. }
  destruct Hqr as [-> ->].
  assert (Hl : new_location (Z.pos m) 0 = loc_Exact).
  { unfold new_location, new_location_even, new_location_odd.
    destruct (Z.even (Z.pos m)); reflexivity. }
  rewrite Hl, xorb_nilpotent. vm_compute. reflexivity.
Qed.

Lemma div_self (a : float) :
  PrimFloat.is_finite a = true -> PrimFloat.is_zero a = false -> (a / a)%float = 1%float.
Proof.
  intros Hf Hz. apply Prim2SF_inj. rewrite div_spec.
  change (Prim2SF 1) with SFone64.
  pose proof (is_finite_spec a Hf) as Hfin.
  unfold PrimFloat.is_zero in Hz. rewrite FloatAxioms.eqb_spec in Hz.
  change (Prim2SF PrimFloat.zero) with (S754_zero false) in Hz.
  destruct (Prim2SF a) as [[]|[]| |s m e]; try contradiction; try discriminate.
  apply SF64div_self.
Qed.

Lemma sum_from_ext64 (f g : Point float -> float) (points : list (Point float)) :
  (forall p, In p points -> f p = g p) ->
  forall a, sum_from f a points = sum_from g a points.
Proof.
  induction points as [|p rest IH]; intros Hfg a; simpl; [reflexivity|].
  rewrite (Hfg p) by (now left). apply IH. intros q Hq. apply Hfg. now right.
Qed.

Lemma rSquared_on_binary64 (points : list (Point float)) :
  let meanY := (Sigma ys points / of_length (length points))%float in
  rSquared (fit64 points) =
  (Sigma (fun p => (slope (fit64 points) * voltage p + intercept (fit64 points) - meanY)
                   * (slope (fit64 points) * voltage p + intercept (fit64 points) - meanY))
         points
   / Sigma (fun p => (current p - meanY) * (current p - meanY)) points)%float.
Proof. unfold fit64. rewrite fit_unfold. reflexivity. Qed.

(** X4. On binary64, when the fitted line returns the current of every point
    of the table exactly, and the total variation is finite and not zero,
    rSquared is exactly 1. *)
Theorem X4_rSquared_one_on_the_fitted_line (points : list (Point float)) :
  (forall p, In p points ->
     (slope (fit64 points) * voltage p + intercept (fit64 points))%float
     = current p) ->
  PrimFloat.is_finite (total_variation64 points) = true ->
  PrimFloat.is_zero (total_variation64 points) = false ->
  rSquared (fit64 points) = 1%float.
Proof.
  intros Hl Hf Hz.
  assert (Hr : rSquared (fit64 points) =
               (total_variation64 points / total_variation64 points)%float).
  { rewrite rSquared_on_binary64. cbv zeta. unfold total_variation64. f_equal.
    unfold Sigma. apply sum_from_ext64.
    intros p Hp. now rewrite (Hl p Hp). }
  rewrite Hr. now apply div_self.
Qed.

Lemma X4_rSquared_one_on_the_fitted_line_witness :
  rSquared (fit64 [pt 0 1; pt 1 3; pt 2 5]%float) = 1%float.
Proof.
  apply X4_rSquared_one_on_the_fitted_line.
  - intros p Hp. simpl in Hp.
    destruct Hp as [<-|[<-|[<-|[]]]]; vm_compute; reflexivity.
  - vm_compute. reflexivity.
  - vm_compute. reflexivity.
Defined.
